(** * Vehicle tracking API: position ingestion and reverse geocoding

    A shallow embedding of the position handlers of [main.py]
    ([save_position], [update_position], [get_positions],
    [get_latest_position]) together with the parts of Python, httpx and
    the document store they rely on, and the properties of the
    specification stated and settled against that embedding. *)

From Stdlib Require Import List String Ascii ZArith NArith Bool Lia.
From Stdlib Require Import DecimalString Sorted Permutation.
From Stdlib Require OrderedTypeEx.
Import ListNotations.

Local Open Scope string_scope.
Local Open Scope Z_scope.
Local Open Scope list_scope.

(** ** Python values *)

(** A Python [float] is carried by its [repr], the shortest decimal that
    reads back as the same float ("12.34", "0.0", "1e-07").  The handlers
    never compute with a float: they store it, test it and print it. *)
Record pyfloat := Float { float_repr : string }.

#[local] Set Warnings "-register-all".

(** The values [json.loads] can return, which are also the values a
    handler puts in a document field. *)
Inductive pyval :=
| PNone
| PBool (b : bool)
| PInt (z : Z)
| PFloat (f : pyfloat)
| PStr (s : string)
| PList (l : list pyval)
| PDict (d : list (string * pyval)).

(** [bool(v)]: what [not v] and [v or w] test. *)
Definition truthy (v : pyval) : bool :=
  match v with
  | PNone => false
  | PBool b => b
  | PInt z => negb (z =? 0)
  | PFloat f =>
      negb (String.eqb (float_repr f) "0.0" || String.eqb (float_repr f) "-0.0")
  | PStr s => negb (String.eqb s "")
  | PList l => match l with [] => false | _ :: _ => true end
  | PDict d => match d with [] => false | _ :: _ => true end
  end.

(** ** Exceptions and results *)

Inductive exn :=
| TypeError
| AttributeError
| IndexError
| JSONDecodeError
| OverflowError
| InvalidDocument                                (* bson.errors.InvalidDocument *)
| TransportError                                 (* httpx.TransportError *)
| TimeoutException                               (* httpx.TimeoutException *)
| HTTPException (status_code : Z) (detail : string).

Inductive result (A : Type) :=
| Ok (a : A)
| Raise (e : exn).
Arguments Ok {A} a.
Arguments Raise {A} e.

Definition bind {A B} (m : result A) (k : A -> result B) : result B :=
  match m with
  | Ok a => k a
  | Raise e => Raise e
  end.

Notation "x <- m ;; k" := (bind m (fun x => k))
  (at level 61, m at next level, right associativity).

(** [try: body / except Exception: handler].  Every exception of [exn] is
    a subclass of [Exception]. *)
Definition try_except {A} (body handler : result A) : result A :=
  match body with
  | Ok a => Ok a
  | Raise _ => handler
  end.

(** What an expression under [await] evaluates to: the coroutine object
    of an [async def], or an ordinary object. *)
Inductive pyobj (A : Type) :=
| Coroutine (r : result A)
| Object (a : A).
Arguments Coroutine {A} r.
Arguments Object {A} a.

(** [await o]: runs a coroutine to its result; an object that is not
    awaitable raises [TypeError] ("object dict can't be used in 'await'
    expression"). *)
Definition await {A} (o : pyobj A) : result A :=
  match o with
  | Coroutine r => r
  | Object _ => Raise TypeError
  end.

(** ** Dictionaries *)

Fixpoint lookup (k : string) (d : list (string * pyval)) : option pyval :=
  match d with
  | [] => None
  | (k', v) :: d' => if String.eqb k k' then Some v else lookup k d'
  end.

(** [o.get(k, default)]: only a dict has [get]. *)
Definition py_get_default (o : pyval) (k : string) (default : pyval)
  : result pyval :=
  match o with
  | PDict d => Ok (match lookup k d with Some v => v | None => default end)
  | _ => Raise AttributeError
  end.

(** [o.get(k)] *)
Definition py_get (o : pyval) (k : string) : result pyval :=
  py_get_default o k PNone.

(** [a or b]: [b] is evaluated only when [a] is falsy. *)
Definition py_or (a b : result pyval) : result pyval :=
  x <- a ;; if truthy x then Ok x else b.

(** [l[i]] on a list. *)
Definition py_index (o : pyval) (i : nat) : result pyval :=
  match o with
  | PList l => match nth_error l i with Some v => Ok v | None => Raise IndexError end
  | _ => Raise TypeError
  end.

(** ** The reverse-geocoding client (httpx) *)

(** An [httpx.Response]: its status and what [json()] does with the body
    ([Raise JSONDecodeError] when the body is not JSON). *)
Record response := Response { status_code : Z; json : result pyval }.

(** The network as the handlers see it: the outcome of one GET, given the
    client's timeout in milliseconds and the URL. *)
Definition network := N -> string -> result response.

(** [httpx.AsyncClient(timeout=t).get(url)] is a coroutine. *)
Definition AsyncClient_get (net : network) (timeout : N) (url : string)
  : pyobj response :=
  Coroutine (net timeout url).

(** [httpx.Response.json] is an ordinary method ([def json], not
    [async def]): it returns the parsed body itself. *)
Definition Response_json (resp : response) : result (pyobj pyval) :=
  v <- json resp ;; Ok (Object v).

(** [starlette.requests.Request.json] is a coroutine function. *)
Definition Request_json (body : result pyval) : pyobj pyval :=
  Coroutine body.

Definition save_position_timeout : N := 10000.      (* timeout=10.0 *)
Definition get_latest_position_timeout : N := 5000. (* timeout=5.0 *)

(** ** Documents of [db.vehicle_positions] *)

(** [class VehiclePosition(BaseModel)]: the validated body of
    POST /positions/. *)
Module VehiclePosition.
Record t := Make {
  vehicle_id : Z;
  latitude : pyfloat;
  longitude : pyfloat;
  timestamp : option Z
}.
End VehiclePosition.

(** The dict a write path hands to [insert_one].  Both write paths build
    exactly these keys; [live_location] is the one that may be missing.
    A [datetime] is carried as a number (BSON keeps milliseconds). *)
Record document := Document {
  vehicle_id : pyval;
  latitude : pyval;
  longitude : pyval;
  timestamp : Z;
  live_location : option pyval
}.

Definition with_live_location (v : pyval) (doc : document) : document :=
  {| vehicle_id := vehicle_id doc;
     latitude := latitude doc;
     longitude := longitude doc;
     timestamp := timestamp doc;
     live_location := Some v |}.

(** The ["_id"] of a document: the [ObjectId] the store assigns, or the
    string a read handler replaces it with. *)
Inductive id_value :=
| ObjectId (hex : string)
| IdStr (s : string).

(** [str(pos["_id"])] *)
Definition str_id (i : id_value) : string :=
  match i with
  | ObjectId hex => hex
  | IdStr s => s
  end.

Record position := Position { _id : id_value; fields : document }.

(** The collection, in insertion order. *)
Definition store := list position.

(** ** Handlers: state and exceptions *)

Definition handler (A : Type) := store -> result A * store.

Definition ret {A} (a : A) : handler A := fun db => (Ok a, db).
Definition raise {A} (e : exn) : handler A := fun db => (Raise e, db).
Definition lift {A} (r : result A) : handler A := fun db => (r, db).

Definition hbind {A B} (m : handler A) (k : A -> handler B) : handler B :=
  fun db =>
    match m db with
    | (Ok a, db') => k a db'
    | (Raise e, db') => (Raise e, db')
    end.

Notation "x <~ m ;; k" := (hbind m (fun x => k))
  (at level 61, m at next level, right associativity).

(** The status FastAPI answers with: the status of an [HTTPException],
    500 for any other exception, 200 for a returned value that it can
    write as JSON (a returned document holding a float [inf] or [nan]
    is answered 500 instead, which is left out here: the properties
    below read the status of exceptions and of the confirmations). *)
Definition http_status {A} (r : result A) : Z :=
  match r with
  | Ok _ => 200
  | Raise (HTTPException s _) => s
  | Raise _ => 500
  end.

(** ** The document store *)

(** The integers BSON can hold: signed, 64 bits. *)
Definition int64 (z : Z) : bool := (- 2 ^ 63 <=? z) && (z <? 2 ^ 63).

(** The filter [{"vehicle_id": vehicle_id}] with a [str] from the path:
    it matches a field holding that very string, and no number. *)
Definition matches (vehicle_id_ : string) (p : position) : bool :=
  match vehicle_id (fields p) with
  | PStr s => String.eqb s vehicle_id_
  | _ => false
  end.

Definition find (vehicle_id_ : string) (db : store) : list position :=
  filter (matches vehicle_id_) db.

(** [.sort("timestamp", -1)]: newest first.  Among equal timestamps the
    store promises no order; the model keeps insertion order. *)
Fixpoint insert_desc (p : position) (l : list position) : list position :=
  match l with
  | [] => [p]
  | q :: l' =>
      if timestamp (fields q) <=? timestamp (fields p)
      then p :: q :: l'
      else q :: insert_desc p l'
  end.

Definition sort_desc (l : list position) : list position :=
  fold_right insert_desc [] l.

(** [.limit(n)]: a limit of 0 is no limit.  Negative limits (a single
    batch of at most [-n] documents) and limits of 2^63 and more, which
    the driver does not send, are left out of the model. *)
Definition limit (n : N) (l : list position) : list position :=
  if (n =? 0)%N then l else firstn (N.to_nat n) l.

(** [find_one(filter, sort=[("timestamp", -1)])] *)
Definition find_one (vehicle_id_ : string) (db : store) : option position :=
  hd_error (sort_desc (find vehicle_id_ db)).

(** ** The other collections *)

(** A document of a collection with its ["_id"]. *)
Record stored (D : Type) := Stored { doc_id : id_value; doc : D }.
Arguments Stored {D} doc_id doc.
Arguments doc_id {D} s.
Arguments doc {D} s.

(** The first document the filter matches, changed by [change]; [None]
    when the filter matches none. *)
Fixpoint update_first {D} (matching : D -> bool) (change : D -> D)
    (coll : list (stored D)) : option (list (stored D)) :=
  match coll with
  | [] => None
  | e :: rest =>
      if matching (doc e)
      then Some ({| doc_id := doc_id e; doc := change (doc e) |} :: rest)
      else match update_first matching change rest with
           | Some rest' => Some (e :: rest')
           | None => None
           end
  end.

(** [update_one(filter, {"$set": fields}, upsert=True)]: [change] is the
    effect of [$set] on a matched document, [fresh] the document built
    from the filter and [$set] when none matches.  The write is taken to
    be accepted by the encoder and the store. *)
Definition update_one {D} (matching : D -> bool) (change : D -> D) (fresh : D)
    (oid : string) (coll : list (stored D)) : list (stored D) :=
  match update_first matching change coll with
  | Some coll' => coll'
  | None => coll ++ [{| doc_id := ObjectId oid; doc := fresh |}]
  end.

(** [class VehicleInfo(BaseModel)]; a document of [db.vehicles] has the
    same five keys. *)
Module VehicleInfo.
Record t := Make {
  id : string;
  name : string;
  type : string;
  company : string;
  username : string
}.
End VehicleInfo.

(** POST /vehicles/update/{vehicle_id} (lines 166-169): the filter is on
    ["id"], which [$set] writes too, from the body. *)
Definition update_vehicle_info (vehicle_id_ : string) (info : VehicleInfo.t)
    (oid : string) (vehicles : list (stored VehicleInfo.t))
  : result pyval * list (stored VehicleInfo.t) :=
  (Ok (PDict [("status", PStr "Vehicle info updated")]),
   update_one (fun d => String.eqb (VehicleInfo.id d) vehicle_id_)
              (fun _ => info) info oid vehicles).

(** [class RouteInfo(BaseModel)] *)
Module RouteInfo.
Record t := Make {
  waypoints : list pyval;
  path : list pyval;
  distance : pyfloat;
  duration : pyfloat
}.
End RouteInfo.

(** [class StatusInfo(BaseModel)] *)
Module StatusInfo.
Record t := Make {
  status : string;
  live_location : string;
  last_updated : string
}.
End StatusInfo.

(** A document of [db.routes] or [db.status]: the ["vehicle_id"] the
    filter put there, and the keys of the body. *)
Record keyed (D : Type) := Keyed { key : string; info : D }.
Arguments Keyed {D} key info.
Arguments key {D} k.
Arguments info {D} k.

Definition update_keyed {D} (vehicle_id_ : string) (body : D) (oid : string)
    (coll : list (stored (keyed D))) : list (stored (keyed D)) :=
  update_one (fun d => String.eqb (key d) vehicle_id_)
             (fun d => {| key := key d; info := body |})
             {| key := vehicle_id_; info := body |} oid coll.

(** POST /routes/update/{vehicle_id} (lines 171-174) *)
Definition update_route_info (vehicle_id_ : string) (body : RouteInfo.t)
    (oid : string) (routes : list (stored (keyed RouteInfo.t)))
  : result pyval * list (stored (keyed RouteInfo.t)) :=
  (Ok (PDict [("status", PStr "Route info updated")]),
   update_keyed vehicle_id_ body oid routes).

(** POST /status/update/{vehicle_id} (lines 176-179) *)
Definition update_status_info (vehicle_id_ : string) (body : StatusInfo.t)
    (oid : string) (statuses : list (stored (keyed StatusInfo.t)))
  : result pyval * list (stored (keyed StatusInfo.t)) :=
  (Ok (PDict [("status", PStr "Status info updated")]),
   update_keyed vehicle_id_ body oid statuses).

(** [class LoginInfo(BaseModel)] as a request carries it: [login_time]
    may be left out. *)
Module LoginInfo.
Record t := Make {
  username : string;
  companyCode : string;
  vehicleId : string;
  login_time : option string
}.
End LoginInfo.

(** A document of [db.logins]. *)
Record login := Login {
  login_username : string;
  login_companyCode : string;
  login_vehicleId : string;
  login_login_time : string
}.

(** [info.dict()]: the default of [login_time] (line 66) is evaluated
    once, when the class is defined; [started] is that value. *)
Definition LoginInfo_dict (started : string) (i : LoginInfo.t) : login :=
  {| login_username := LoginInfo.username i;
     login_companyCode := LoginInfo.companyCode i;
     login_vehicleId := LoginInfo.vehicleId i;
     login_login_time := match LoginInfo.login_time i with
                         | Some t => t
                         | None => started
                         end |}.

(** POST /login (lines 181-184) *)
Definition save_login (started : string) (i : LoginInfo.t) (oid : string)
    (logins : list (stored login)) : result pyval * list (stored login) :=
  (Ok (PDict [("status", PStr "Login info saved")]),
   logins ++ [{| doc_id := ObjectId oid; doc := LoginInfo_dict started i |}]).

(** [.sort("login_time", -1)] on strings: byte-wise, greatest first;
    equal times keep insertion order in the model. *)
Fixpoint insert_login (p : stored login) (l : list (stored login))
  : list (stored login) :=
  match l with
  | [] => [p]
  | q :: l' =>
      if String.leb (login_login_time (doc q)) (login_login_time (doc p))
      then p :: q :: l'
      else q :: insert_login p l'
  end.

Definition sort_logins (l : list (stored login)) : list (stored login) :=
  fold_right insert_login [] l.

(** GET /logins (lines 186-193) *)
Definition get_logins (logins : list (stored login))
  : result (list (stored login)) * list (stored login) :=
  (Ok (map (fun e => {| doc_id := IdStr (str_id (doc_id e)); doc := doc e |})
           (sort_logins logins)),
   logins).

(** ** The handlers of [main.py] *)

Section Handlers.

(** Python's [repr] of a list or a dict, which an f-string prints for a
    field holding one.  It is not modelled: every result below holds
    whatever it prints. *)
Variable container_repr : pyval -> string.

(** The exception with which the BSON encoder refuses a list or a dict
    (an integer inside it outside 64 bits, a key it cannot write, too
    deep a nesting), if it does.  It is not modelled either. *)
Variable container_refusal : pyval -> option exn.

(** The exception with which the encoder refuses a value, if it does:
    an integer outside 64 bits is an [OverflowError]. *)
Definition refusal (v : pyval) : option exn :=
  match v with
  | PInt z => if int64 z then None else Some OverflowError
  | PList _ | PDict _ => container_refusal v
  | _ => None
  end.

(** The first refusal among the fields of a document, in the order the
    encoder writes them (a [datetime] is always written). *)
Definition document_refusal (doc : document) : option exn :=
  match refusal (vehicle_id doc), refusal (latitude doc),
        refusal (longitude doc) with
  | Some e, _, _ => Some e
  | None, Some e, _ => Some e
  | None, None, Some e => Some e
  | None, None, None =>
      match live_location doc with
      | Some v => refusal v
      | None => None
      end
  end.

(** [await db.vehicle_positions.insert_one(doc)]: encodes the document
    and appends it under a fresh [ObjectId]; a document the encoder
    refuses raises and leaves the store as it is. *)
Definition insert_one (oid : string) (doc : document) : handler unit :=
  fun db =>
    match document_refusal doc with
    | Some e => (Raise e, db)
    | None => (Ok tt, db ++ [{| _id := ObjectId oid; fields := doc |}])
    end.

(** [f"{v}"] *)
Definition py_format (v : pyval) : string :=
  match v with
  | PNone => "None"
  | PBool true => "True"
  | PBool false => "False"
  | PInt z => NilZero.string_of_int (Z.to_int z)
  | PFloat f => float_repr f
  | PStr s => s
  | PList _ | PDict _ => container_repr v
  end.

(** [f"{lat}, {lon}"] (lines 90, 93, 95 and 157, 160, 162) *)
Definition coordinate_label (lat lon : pyval) : string :=
  (py_format lat ++ ", " ++ py_format lon)%string.

(** The request URL (lines 74 and 143). *)
Definition reverse_url (lat lon : pyval) : string :=
  ("https://nominatim.openstreetmap.org/reverse?format=jsonv2&lat="
     ++ py_format lat ++ "&lon=" ++ py_format lon ++ "&accept-language=en")%string.

(** *** POST /positions/ *)

(** Lines 81-91: the [or] chain over the parsed response [data]. *)
Definition save_position_chain (data lat lon : pyval) : result pyval :=
  address <- py_get_default data "address" (PDict []) ;;
  py_or (py_get address "suburb")
 (py_or (py_get address "village")
 (py_or (py_get address "town")
 (py_or (py_get address "city")
 (py_or (py_get address "county")
 (py_or (py_get address "state")
 (py_or (py_get data "display_name")
        (Ok (PStr (coordinate_label lat lon))))))))).

(** Lines 74-95: the value stored under ["live_location"]. *)
Definition save_position_live_location (lat lon : pyval) (net : network)
  : result pyval :=
  let url := reverse_url lat lon in
  try_except
    (resp <- await (AsyncClient_get net save_position_timeout url) ;;
     if status_code resp =? 200 then
       data <- (o <- Response_json resp ;; await o) ;;
       save_position_chain data lat lon
     else
       Ok (PStr (coordinate_label lat lon)))
    (Ok (PStr (coordinate_label lat lon))).

(** [doc = position.dict()], with the timestamp defaulted (lines 70-72; a
    [datetime] is always truthy). *)
Definition position_dict (p : VehiclePosition.t) (now : Z) : document :=
  {| vehicle_id := PInt (VehiclePosition.vehicle_id p);
     latitude := PFloat (VehiclePosition.latitude p);
     longitude := PFloat (VehiclePosition.longitude p);
     timestamp := match VehiclePosition.timestamp p with
                  | Some t => t
                  | None => now
                  end;
     live_location := None |}.

Definition save_position (p : VehiclePosition.t) (now : Z) (oid : string)
    (net : network) : handler pyval :=
  let doc := position_dict p now in
  label <~ lift (save_position_live_location (latitude doc) (longitude doc) net) ;;
  let doc := with_live_location label doc in
  _ <~ insert_one oid doc ;;
  ret (PDict [("status", PStr "Position saved successfully")]).

(** *** POST /positions/update/{vehicle_id} *)

(** Line 103: [not position or not isinstance(position, list) or
    len(position) != 2]; [len] is reached for a list only. *)
Definition invalid_position (position : pyval) : bool :=
  negb (truthy position)
  || match position with
     | PList l => negb (Nat.eqb (List.length l) 2)
     | _ => true
     end.

Definition update_position (vehicle_id_ : string) (body : result pyval)
    (now : Z) (oid : string) : handler pyval :=
  data <~ lift (await (Request_json body)) ;;
  position <~ lift (py_get data "position") ;;
  if invalid_position position then
    raise (HTTPException 400 "Invalid position format. Expected [lat, lon].")
  else
    lat <~ lift (py_index position 0) ;;
    lon <~ lift (py_index position 1) ;;
    let doc := {| vehicle_id := PStr vehicle_id_;
                  latitude := lat;
                  longitude := lon;
                  timestamp := now;
                  live_location := None |} in
    _ <~ insert_one oid doc ;;
    ret (PDict [("status", PStr "Position updated")]).

(** *** GET /positions/{vehicle_id} *)

(** [pos["_id"] = str(pos["_id"])] *)
Definition stringify_id (pos : position) : position :=
  {| _id := IdStr (str_id (_id pos)); fields := fields pos |}.

(** [limit_ = None] is the request without [?limit=]. *)
Definition get_positions (vehicle_id_ : string) (limit_ : option N)
  : handler (list position) :=
  let n := match limit_ with Some n => n | None => 100%N end in
  fun db =>
    let cursor := limit n (sort_desc (find vehicle_id_ db)) in
    (Ok (map stringify_id cursor), db).

(** *** GET /positions/latest/{vehicle_id} *)

(** Lines 148-158. *)
Definition get_latest_position_chain (data lat lon : pyval) : result pyval :=
  address <- py_get_default data "address" (PDict []) ;;
  py_or (py_get address "suburb")
 (py_or (py_get address "village")
 (py_or (py_get address "town")
 (py_or (py_get address "city")
 (py_or (py_get address "county")
 (py_or (py_get address "state")
 (py_or (py_get data "display_name")
        (Ok (PStr (coordinate_label lat lon))))))))).

(** Lines 139-162: the value returned under ["live_location"]. *)
Definition get_latest_position_live_location (pos : position) (net : network)
  : result pyval :=
  let live_location_ :=
    match live_location (fields pos) with Some v => v | None => PNone end in
  if negb (truthy live_location_) then
    let lat := latitude (fields pos) in
    let lon := longitude (fields pos) in
    try_except
      (let url := reverse_url lat lon in
       resp <- await (AsyncClient_get net get_latest_position_timeout url) ;;
       if status_code resp =? 200 then
         data <- (o <- Response_json resp ;; await o) ;;
         get_latest_position_chain data lat lon
       else
         Ok (PStr (coordinate_label lat lon)))
      (Ok (PStr (coordinate_label lat lon)))
  else Ok live_location_.

Definition get_latest_position (vehicle_id_ : string) (net : network)
  : handler position :=
  fun db =>
    match find_one vehicle_id_ db with
    | None =>
        (Raise (HTTPException 404 "No positions found for this vehicle"), db)
    | Some pos =>
        let pos := stringify_id pos in
        match get_latest_position_live_location pos net with
        | Ok label =>
            (Ok {| _id := _id pos;
                   fields := with_live_location label (fields pos) |}, db)
        | Raise e => (Raise e, db)
        end
    end.

(** *** [get_place_name] (lines 123-130) *)

(** [httpx.AsyncClient()] without a timeout uses the default of 5 s. *)
Definition default_timeout : N := 5000.

(** No [try] surrounds the request here. *)
Definition get_place_name (lat lon : pyval) (net : network) : result pyval :=
  let url := reverse_url lat lon in
  resp <- await (AsyncClient_get net default_timeout url) ;;
  if status_code resp =? 200 then
    data <- (o <- Response_json resp ;; await o) ;;
    py_get_default data "display_name" (PStr (coordinate_label lat lon))
  else
    Ok (PStr (coordinate_label lat lon)).

(** ** Vocabulary of the specification *)

(** The geocoding call did not end in a usable answer: the request raised
    (transport failure, timeout), the status is not 200, or the body is
    malformed (not JSON, not an object, or with an ["address"] that is
    not an object). *)
Definition geocoding_failed (got : result response) : bool :=
  match got with
  | Raise _ => true
  | Ok resp =>
      negb (status_code resp =? 200)
      || match json resp with
         | Ok (PDict d) =>
             match lookup "address" d with
             | Some (PDict _) | None => false
             | Some _ => true
             end
         | _ => true
         end
  end.

(** "The first non-empty value, then the fallback". *)
Definition first_truthy (candidates : list pyval) (fallback : pyval) : pyval :=
  match List.find truthy candidates with
  | Some v => v
  | None => fallback
  end.

(** [d.get(k)] on the entries of a dict. *)
Definition field (k : string) (d : list (string * pyval)) : pyval :=
  match lookup k d with Some v => v | None => PNone end.

(** A JSON number is an [int] or a [float]. *)
Definition is_number (v : pyval) : bool :=
  match v with
  | PInt _ | PFloat _ => true
  | _ => false
  end.

(** A two-element numeric pair, as the update operation is specified to
    require. *)
Definition numeric_pair (v : pyval) : bool :=
  match v with
  | PList [a; b] => is_number a && is_number b
  | _ => false
  end.


(** [p] is at least as recent as [q]. *)
Definition newer_first (p q : position) : Prop :=
  timestamp (fields q) <= timestamp (fields p).


(** The documents of [db.vehicles] whose ["id"] is [i]. *)
Definition vehicles_with_id (i : string) (coll : list (stored VehicleInfo.t))
  : list (stored VehicleInfo.t) :=
  filter (fun e => String.eqb (VehicleInfo.id (doc e)) i) coll.

(** The login time of [p] is not before that of [q], as strings. *)
Definition later_first (p q : stored login) : Prop :=
  String.leb (login_login_time (doc q)) (login_login_time (doc p)) = true.

(** ** Sample inputs *)

Definition float_ (repr : string) : pyval := PFloat (Float repr).

Definition springfield : pyval :=
  PDict [("address", PDict [("city", PStr "Springfield");
                            ("state", PStr "Illinois")])].

(** A geocoder that answers every request with [status] and [body]. *)
Definition answering (status : Z) (body : result pyval) : network :=
  fun _ _ => Ok (Response status body).

(** A geocoder that never answers in time. *)
Definition timing_out : network := fun _ _ => Raise TimeoutException.

Definition body_of (position : pyval) : result pyval :=
  Ok (PDict [("position", position)]).

Definition pushed (vehicle : string) (ts : Z) (oid : string)
    (ll : option pyval) : position :=
  {| _id := ObjectId oid;
     fields := {| vehicle_id := PStr vehicle;
                  latitude := float_ "12.34";
                  longitude := float_ "56.78";
                  timestamp := ts;
                  live_location := ll |} |}.

Definition sample_store : store :=
  [pushed "v1" 5 "a1" None; pushed "v2" 7 "a2" None; pushed "v1" 9 "a3" None].



(** A record that already has a label. *)
Definition labelled_store : store :=
  [pushed "v1" 5 "a1" (Some (PStr "Main Street"))].

(** A parsed body whose address is null. *)
Definition null_address : list (string * pyval) :=
  [("address", PNone); ("display_name", PStr "42 Wallaby Way, Sydney")].

Definition truck : VehicleInfo.t :=
  VehicleInfo.Make "v1" "Truck 1" "truck" "ACME" "ann".

(** A body sent to /vehicles/update/v1 under another id. *)
Definition renamed_truck : VehicleInfo.t :=
  VehicleInfo.Make "v9" "Truck 1" "truck" "ACME" "ann".

(** A stand-in for [container_repr] when a handler is run on sample
    inputs, none of which prints a list or a dict. *)
Definition sample_repr : pyval -> string := fun _ => "[...]".

(** A stand-in for [container_refusal] on the same sample inputs. *)
Definition sample_refusal : pyval -> option exn := fun _ => None.

(** A report for vehicle 7, and the store after it alone was submitted. *)
Definition report_7 : VehiclePosition.t :=
  VehiclePosition.Make 7 (Float "12.34") (Float "56.78") (Some 5).

Definition submitted_store : store :=
  [{| _id := ObjectId "a1";
      fields := {| vehicle_id := PInt 7;
                   latitude := float_ "12.34";
                   longitude := float_ "56.78";
                   timestamp := 5;
                   live_location := Some (PStr "12.34, 56.78") |} |}].



(** ** Properties *)

(** *** Strings and the [or] chain *)

Lemma append_nonempty_r (a b : string) : b <> "" -> (a ++ b)%string <> "".
Proof.
  intros Hb H. destruct a as [|c a]; simpl in H.
  - now apply Hb.
  - discriminate.
Qed.

Lemma coordinate_label_nonempty lat lon : coordinate_label lat lon <> "".
Proof.
  unfold coordinate_label. apply append_nonempty_r. discriminate.
Qed.

Lemma nonempty_truthy s : s <> "" -> truthy (PStr s) = true.
Proof.
  intros H. simpl. destruct (String.eqb_spec s ""); [contradiction | reflexivity].
Qed.

Lemma truthy_not_empty_string v : truthy v = true -> v <> PStr "".
Proof. intros H ->. discriminate. Qed.

Lemma py_or_Ok x b : py_or (Ok x) b = if truthy x then Ok x else b.
Proof. reflexivity. Qed.

Lemma py_or_truthy a b v :
  (forall w, b = Ok w -> truthy w = true) ->
  py_or a b = Ok v -> truthy v = true.
Proof.
  intros Hb. destruct a as [x|e]; simpl; [|discriminate].
  destruct (truthy x) eqn:Hx.
  - intros [= <-]. exact Hx.
  - apply Hb.
Qed.

(** X14: The chain of lines 81-91 never yields a falsy value. *)
Lemma save_position_chain_truthy data lat lon v :
  save_position_chain data lat lon = Ok v -> truthy v = true.
Proof.
  unfold save_position_chain.
  destruct (py_get_default data "address" (PDict [])) as [address|e]; simpl;
    [|discriminate].
  repeat (apply py_or_truthy; intros ?).
  intros [= <-]. apply nonempty_truthy, coordinate_label_nonempty.
Qed.

(** X13: The chain of lines 81-91 takes the candidates in the order suburb,
    village, town, city, county, state, display name, coordinates. *)
Lemma save_position_chain_order d a lat lon :
  py_get_default (PDict d) "address" (PDict []) = Ok (PDict a) ->
  save_position_chain (PDict d) lat lon =
  Ok (first_truthy
        [field "suburb" a; field "village" a; field "town" a; field "city" a;
         field "county" a; field "state" a; field "display_name" d]
        (PStr (coordinate_label lat lon))).
Proof.
  intros H. unfold save_position_chain. rewrite H. simpl bind.
  unfold py_get, py_get_default, first_truthy, field. simpl.
  repeat match goal with
         | |- context [truthy ?x] => destruct (truthy x); [reflexivity|]
         end.
  reflexivity.
Qed.

(** Lines 148-158 repeat lines 81-91. *)
Lemma get_latest_position_chain_eq data lat lon :
  get_latest_position_chain data lat lon = save_position_chain data lat lon.
Proof. reflexivity. Qed.

(** *** Awaiting [resp.json()] *)

(** [await resp.json()]: [json()] either raises on the body or returns a
    parsed value, which is not awaitable. *)
Lemma await_Response_json resp :
  exists e, (o <- Response_json resp ;; await o) = Raise e.
Proof.
  unfold Response_json. destruct (json resp) as [v|e]; simpl; eauto.
Qed.

Lemma save_position_live_location_eq lat lon net :
  save_position_live_location lat lon net = Ok (PStr (coordinate_label lat lon)).
Proof.
  unfold save_position_live_location, AsyncClient_get. simpl await.
  destruct (net save_position_timeout (reverse_url lat lon)) as [resp|e];
    simpl; [|reflexivity].
  destruct (status_code resp =? 200); [|reflexivity].
  destruct (await_Response_json resp) as [e ->]. reflexivity.
Qed.

Lemma get_latest_position_backfill pos net :
  truthy (match live_location (fields pos) with Some v => v | None => PNone end)
    = false ->
  get_latest_position_live_location pos net =
  Ok (PStr (coordinate_label (latitude (fields pos)) (longitude (fields pos)))).
Proof.
  intros H. unfold get_latest_position_live_location. rewrite H. simpl negb.
  cbv iota. unfold AsyncClient_get. simpl await.
  destruct (net _ _) as [resp|e]; simpl; [|reflexivity].
  destruct (status_code resp =? 200); [|reflexivity].
  destruct (await_Response_json resp) as [e ->]. reflexivity.
Qed.

Lemma get_latest_position_live_location_Ok pos net :
  exists label,
    get_latest_position_live_location pos net = Ok label /\ truthy label = true.
Proof.
  destruct (truthy (match live_location (fields pos) with
                    | Some v => v | None => PNone end)) eqn:H.
  - unfold get_latest_position_live_location. rewrite H. simpl. eauto.
  - rewrite get_latest_position_backfill by exact H.
    eexists; split; [reflexivity|].
    apply nonempty_truthy, coordinate_label_nonempty.
Qed.

(** *** The store: [find], [sort] and [limit] *)

Lemma insert_desc_perm p l : Permutation (p :: l) (insert_desc p l).
Proof.
  induction l as [|q l IH]; simpl.
  - apply Permutation_refl.
  - destruct (timestamp (fields q) <=? timestamp (fields p)).
    + apply Permutation_refl.
    + eapply perm_trans; [apply perm_swap|]. now apply perm_skip.
Qed.

Lemma sort_desc_perm l : Permutation l (sort_desc l).
Proof.
  induction l as [|p l IH]; simpl.
  - apply perm_nil.
  - eapply perm_trans; [apply perm_skip, IH | apply insert_desc_perm].
Qed.

Lemma insert_desc_sorted p l :
  StronglySorted newer_first l -> StronglySorted newer_first (insert_desc p l).
Proof.
  induction 1 as [|q l Hl IH Hq]; simpl.
  - repeat constructor.
  - destruct (Z.leb_spec (timestamp (fields q)) (timestamp (fields p))) as [Hle|Hlt].
    + constructor; [now constructor|].
      constructor; [exact Hle|].
      rewrite Forall_forall in *. intros r Hr.
      unfold newer_first in *. specialize (Hq r Hr). lia.
    + constructor; [exact IH|].
      rewrite Forall_forall in *. intros r Hr.
      apply (Permutation_in _ (Permutation_sym (insert_desc_perm p l))) in Hr.
      destruct Hr as [<-|Hr]; [unfold newer_first; lia | now apply Hq].
Qed.

Lemma sort_desc_sorted l : StronglySorted newer_first (sort_desc l).
Proof.
  induction l as [|p l IH]; simpl; [constructor | now apply insert_desc_sorted].
Qed.




Lemma find_one_None vehicle db :
  find_one vehicle db = None <-> forall p, In p db -> matches vehicle p = false.
Proof.
  unfold find_one, find. split.
  - intros H p Hp. destruct (matches vehicle p) eqn:Hm; [|reflexivity].
    assert (Hin : In p (sort_desc (filter (matches vehicle) db))).
    { apply (Permutation_in _ (sort_desc_perm _)), filter_In. now split. }
    destruct (sort_desc (filter (matches vehicle) db)); [contradiction|discriminate].
  - intros H.
    destruct (sort_desc (filter (matches vehicle) db)) as [|q l] eqn:Hs;
      [reflexivity|].
    assert (Hin : In q (filter (matches vehicle) db)).
    { apply (Permutation_in _ (Permutation_sym (sort_desc_perm _))).
      rewrite Hs. now left. }
    apply filter_In in Hin as [Hq Hm]. rewrite (H q Hq) in Hm. discriminate.
Qed.

Lemma find_one_Some vehicle db pos :
  find_one vehicle db = Some pos ->
  In pos db /\ matches vehicle pos = true /\
  forall q, In q db -> matches vehicle q = true -> newer_first pos q.
Proof.
  unfold find_one, find. intros H.
  pose proof (sort_desc_sorted (filter (matches vehicle) db)) as Hs.
  pose proof (sort_desc_perm (filter (matches vehicle) db)) as Hp.
  destruct (sort_desc (filter (matches vehicle) db)) as [|a l]; [discriminate|].
  injection H as ->.
  assert (Hin : In pos (filter (matches vehicle) db)).
  { apply (Permutation_in _ (Permutation_sym Hp)). now left. }
  apply filter_In in Hin as [Hdb Hm]. repeat split; trivial.
  intros q Hq Hmq.
  assert (Hq' : In q (pos :: l)).
  { apply (Permutation_in _ Hp), filter_In. now split. }
  destruct Hq' as [<-|Hq']; [unfold newer_first; lia|].
  inversion Hs as [|? ? _ Hall]; subst.
  rewrite Forall_forall in Hall. now apply Hall.
Qed.

(** *** The write paths *)

(** What [save_position] does: the document is refused exactly when the
    vehicle_id does not fit in 64 bits. *)
Lemma save_position_eq p now oid net db :
  save_position p now oid net db
    = if int64 (VehiclePosition.vehicle_id p)
      then (Ok (PDict [("status", PStr "Position saved successfully")]),
            db ++ [{| _id := ObjectId oid;
                      fields :=
                        with_live_location
                          (PStr (coordinate_label
                                   (PFloat (VehiclePosition.latitude p))
                                   (PFloat (VehiclePosition.longitude p))))
                          (position_dict p now) |}])
      else (Raise OverflowError, db).
Proof.
  unfold save_position, hbind, lift. simpl latitude. simpl longitude.
  rewrite save_position_live_location_eq.
  unfold insert_one, document_refusal. simpl.
  destruct (int64 (VehiclePosition.vehicle_id p)); reflexivity.
Qed.

(** What [update_position] leaves in the store. *)
Lemma update_position_store vehicle body now oid db :
  (snd (update_position vehicle body now oid db) = db /\
   exists e, fst (update_position vehicle body now oid db) = Raise e) \/
  exists lat lon,
    update_position vehicle body now oid db
      = (Ok (PDict [("status", PStr "Position updated")]),
         db ++ [{| _id := ObjectId oid;
                   fields := {| vehicle_id := PStr vehicle; latitude := lat;
                                longitude := lon; timestamp := now;
                                live_location := None |} |}]).
Proof.
  unfold update_position, hbind, lift, raise. simpl await.
  destruct body as [data|e]; [|left; simpl; eauto].
  destruct (py_get data "position") as [position|e]; [|left; simpl; eauto].
  destruct (invalid_position position); [left; simpl; eauto|].
  destruct (py_index position 0) as [lat|e]; [|left; simpl; eauto].
  destruct (py_index position 1) as [lon|e]; [|left; simpl; eauto].
  unfold insert_one.
  destruct (document_refusal _) as [e|]; [left; simpl; eauto|].
  right. exists lat, lon. reflexivity.
Qed.

(** An accepted pair whose elements the encoder takes is stored. *)
Lemma update_position_pair vehicle d a b now oid db :
  lookup "position" d = Some (PList [a; b]) ->
  update_position vehicle (Ok (PDict d)) now oid db
    = match refusal a, refusal b with
      | Some e, _ | None, Some e => (Raise e, db)
      | None, None =>
          (Ok (PDict [("status", PStr "Position updated")]),
           db ++ [{| _id := ObjectId oid;
                     fields := {| vehicle_id := PStr vehicle; latitude := a;
                                  longitude := b; timestamp := now;
                                  live_location := None |} |}])
      end.
Proof.
  intros H. unfold update_position, hbind, lift, raise. simpl. rewrite H.
  simpl. unfold insert_one, document_refusal. simpl.
  destruct (refusal a); [reflexivity|]. destruct (refusal b); reflexivity.
Qed.

(** C1 (amended): every document the submit operation (POST /positions/)
    persists has a non-empty string as its live_location, the coordinate
    string, whatever the geocoding call does; the lightweight update
    operation persists its document with no live_location field. *)
Theorem save_position_stores_live_location p now oid net db :
  (snd (save_position p now oid net db) = db \/
   exists doc_ s,
     snd (save_position p now oid net db)
       = db ++ [{| _id := ObjectId oid; fields := doc_ |}] /\
     live_location doc_ = Some (PStr s) /\ s <> "" /\
     s = (float_repr (VehiclePosition.latitude p) ++ ", "
          ++ float_repr (VehiclePosition.longitude p))%string) /\
  (forall vehicle body,
     snd (update_position vehicle body now oid db) = db \/
     exists doc_,
       snd (update_position vehicle body now oid db)
         = db ++ [{| _id := ObjectId oid; fields := doc_ |}] /\
       live_location doc_ = None).
Proof.
  split.
  - rewrite save_position_eq.
    destruct (int64 (VehiclePosition.vehicle_id p)); [right | now left].
    do 2 eexists. split; [reflexivity|]. split; [reflexivity|].
    split; [apply coordinate_label_nonempty | reflexivity].
  - intros vehicle body.
    destruct (update_position_store vehicle body now oid db)
      as [[H _]|(lat & lon & ->)]; [now left | right].
    eexists. split; reflexivity.
Qed.


(** C4: when the geocoding call ends in a transport failure, a timeout, a
    status other than 200 or a malformed body, the label computed on the
    submit path is exactly "<latitude>, <longitude>", and nothing is
    raised to the caller. *)
Theorem save_position_live_location_fallback lat lon net :
  geocoding_failed (net save_position_timeout (reverse_url lat lon)) = true ->
  save_position_live_location lat lon net
    = Ok (PStr (py_format lat ++ ", " ++ py_format lon)%string).
Proof.
  intros Hfail. unfold save_position_live_location, AsyncClient_get.
  simpl await. unfold geocoding_failed in Hfail.
  destruct (net save_position_timeout (reverse_url lat lon)) as [resp|e];
    simpl; [|reflexivity].
  destruct (status_code resp =? 200); [|reflexivity].
  destruct (await_Response_json resp) as [e ->]. reflexivity.
Qed.

(** C9: whatever the coordinates and whatever the geocoding call does
    (answer, failure, timeout, malformed body), the label computed on the
    submit path, and the one backfilled for a record without
    live_location, is a non-empty string. *)
Theorem live_location_never_empty lat lon net :
  (exists s, save_position_live_location lat lon net = Ok (PStr s) /\ s <> "") /\
  (forall id_ vehicle ts,
     exists s,
       get_latest_position_live_location
         {| _id := id_;
            fields := {| vehicle_id := vehicle; latitude := lat;
                         longitude := lon; timestamp := ts;
                         live_location := None |} |} net = Ok (PStr s) /\
       s <> "").
Proof.
  split.
  - rewrite save_position_live_location_eq. eexists. split; [reflexivity|].
    apply coordinate_label_nonempty.
  - intros id_ vehicle ts. rewrite get_latest_position_backfill by reflexivity.
    eexists. split; [reflexivity|]. apply coordinate_label_nonempty.
Qed.

(** C5 (amended): when the JSON body is an object whose "position" is
    missing or is anything but a two-element list, the update operation
    fails with status 400 and the store is unchanged. *)
Theorem update_position_checks_shape vehicle d now oid db :
  (forall a b, lookup "position" d <> Some (PList [a; b])) ->
  update_position vehicle (Ok (PDict d)) now oid db
    = (Raise (HTTPException 400 "Invalid position format. Expected [lat, lon]."),
       db) /\
  http_status (fst (update_position vehicle (Ok (PDict d)) now oid db)) = 400.
Proof.
  intros H.
  assert (Hinv : invalid_position (field "position" d) = true).
  { unfold field. destruct (lookup "position" d) as [v|] eqn:Hv; [|reflexivity].
    destruct v as [| | | | |l|]; try (unfold invalid_position;
      apply orb_true_r).
    destruct l as [|a [|b [|c l]]]; try reflexivity.
    now destruct (H a b). }
  unfold update_position, hbind, lift, raise. simpl.
  fold (field "position" d). rewrite Hinv. split; reflexivity.
Qed.

(** *** The read paths *)

Lemma get_latest_position_found vehicle net db pos label :
  find_one vehicle db = Some pos ->
  get_latest_position_live_location (stringify_id pos) net = Ok label ->
  get_latest_position vehicle net db
    = (Ok {| _id := IdStr (str_id (_id pos));
             fields := with_live_location label (fields pos) |}, db).
Proof.
  intros Hf Hl. unfold get_latest_position. rewrite Hf, Hl. reflexivity.
Qed.

Lemma get_latest_position_backfill_found vehicle net db pos :
  find_one vehicle db = Some pos ->
  truthy (match live_location (fields pos) with Some v => v | None => PNone end)
    = false ->
  get_latest_position vehicle net db
    = (Ok {| _id := IdStr (str_id (_id pos));
             fields :=
               {| vehicle_id := vehicle_id (fields pos);
                  latitude := latitude (fields pos);
                  longitude := longitude (fields pos);
                  timestamp := timestamp (fields pos);
                  live_location :=
                    Some (PStr (coordinate_label (latitude (fields pos))
                                                 (longitude (fields pos)))) |} |},
       db).
Proof.
  intros Hf Hl.
  rewrite (get_latest_position_found vehicle net db pos
             (PStr (coordinate_label (latitude (fields pos))
                                     (longitude (fields pos)))) Hf);
    [reflexivity|].
  now rewrite get_latest_position_backfill.
Qed.

(** X24: For a latest stored position without live_location, the latest
    handler returns the stored fields with the coordinate string filled
    in as live_location, whatever the geocoder answers, and leaves the
    store unchanged; the label is not written back. *)
Theorem get_latest_position_backfills_without_write vehicle net db pos :
  find_one vehicle db = Some pos ->
  live_location (fields pos) = None ->
  get_latest_position vehicle net db
    = (Ok {| _id := IdStr (str_id (_id pos));
             fields :=
               {| vehicle_id := vehicle_id (fields pos);
                  latitude := latitude (fields pos);
                  longitude := longitude (fields pos);
                  timestamp := timestamp (fields pos);
                  live_location :=
                    Some (PStr (py_format (latitude (fields pos)) ++ ", "
                                ++ py_format (longitude (fields pos)))%string) |} |},
       db) /\
  In pos db.
Proof.
  intros Hf Hnone. split.
  - apply get_latest_position_backfill_found; [exact Hf | now rewrite Hnone].
  - now destruct (find_one_Some _ _ _ Hf).
Qed.


(** X23: the latest operation fails with status 404 when no stored
    document holds the identifier, as a string, in vehicle_id; otherwise
    it returns one of the documents that do, one whose timestamp no
    other of them exceeds. *)
Theorem get_latest_position_404_or_newest vehicle net db :
  ((forall p, In p db -> matches vehicle p = false) ->
   get_latest_position vehicle net db
     = (Raise (HTTPException 404 "No positions found for this vehicle"), db) /\
   http_status (fst (get_latest_position vehicle net db)) = 404) /\
  ((exists p, In p db /\ matches vehicle p = true) ->
   exists pos label,
     In pos db /\ matches vehicle pos = true /\
     (forall q, In q db -> matches vehicle q = true ->
                timestamp (fields q) <= timestamp (fields pos)) /\
     get_latest_position vehicle net db
       = (Ok {| _id := IdStr (str_id (_id pos));
                fields := with_live_location label (fields pos) |}, db)).
Proof.
  split.
  - intros H. apply find_one_None in H.
    unfold get_latest_position. rewrite H. split; reflexivity.
  - intros (p & Hp & Hm).
    destruct (find_one vehicle db) as [pos|] eqn:Hf.
    + destruct (find_one_Some _ _ _ Hf) as (Hin & Hmatch & Hnewest).
      destruct (get_latest_position_live_location_Ok (stringify_id pos) net)
        as (label & Hl & _).
      exists pos, label. repeat split; trivial.
      now apply get_latest_position_found.
    + rewrite find_one_None in Hf. rewrite (Hf p Hp) in Hm. discriminate.
Qed.





(** *** Writes followed by reads *)

Lemma find_app vehicle db1 db2 :
  find vehicle (db1 ++ db2) = find vehicle db1 ++ find vehicle db2.
Proof. apply filter_app. Qed.

Lemma find_snoc_other vehicle db p :
  matches vehicle p = false -> find vehicle (db ++ [p]) = find vehicle db.
Proof.
  intros H. rewrite find_app. unfold find at 2. simpl. rewrite H.
  apply app_nil_r.
Qed.

Lemma reads_depend_on_find vehicle db db' :
  find vehicle db' = find vehicle db ->
  (forall limit_,
     fst (get_positions vehicle limit_ db') = fst (get_positions vehicle limit_ db)) /\
  (forall net,
     fst (get_latest_position vehicle net db')
       = fst (get_latest_position vehicle net db)).
Proof.
  intros H. split.
  - intros limit_. unfold get_positions. simpl. now rewrite H.
  - intros net. unfold get_latest_position, find_one. rewrite H.
    destruct (hd_error (sort_desc (find vehicle db))) as [pos|]; [|reflexivity].
    destruct (get_latest_position_live_location (stringify_id pos) net);
      reflexivity.
Qed.

Lemma matches_other vehicle vehicle' i lat lon ts ll :
  vehicle' <> vehicle ->
  matches vehicle'
    {| _id := i;
       fields := {| vehicle_id := PStr vehicle; latitude := lat;
                    longitude := lon; timestamp := ts; live_location := ll |} |}
    = false.
Proof.
  intros H. unfold matches. simpl. apply String.eqb_neq. congruence.
Qed.


(** X2: A position stored by the submit operation holds its vehicle_id as a
    number, which the string filter of the read operations never matches:
    the list and latest answers for every identifier are the same after a
    submit as before it. *)
Theorem save_position_invisible_to_reads p now oid net db vehicle :
  (forall limit_,
     fst (get_positions vehicle limit_ (snd (save_position p now oid net db)))
       = fst (get_positions vehicle limit_ db)) /\
  (forall net',
     fst (get_latest_position vehicle net' (snd (save_position p now oid net db)))
       = fst (get_latest_position vehicle net' db)).
Proof.
  apply reads_depend_on_find. rewrite save_position_eq.
  destruct (int64 (VehiclePosition.vehicle_id p)); [|reflexivity].
  simpl snd. now apply find_snoc_other.
Qed.

(** X3: An update for one vehicle, accepted or rejected, leaves the list and
    latest answers of every other vehicle as they were. *)
Theorem update_position_other_vehicles vehicle vehicle' body now oid db :
  vehicle' <> vehicle ->
  (forall limit_,
     fst (get_positions vehicle' limit_
            (snd (update_position vehicle body now oid db)))
       = fst (get_positions vehicle' limit_ db)) /\
  (forall net,
     fst (get_latest_position vehicle' net
            (snd (update_position vehicle body now oid db)))
       = fst (get_latest_position vehicle' net db)).
Proof.
  intros Hne. apply reads_depend_on_find.
  destruct (update_position_store vehicle body now oid db)
    as [[-> _]|(lat & lon & ->)]; [reflexivity|].
  simpl snd. now apply find_snoc_other, matches_other.
Qed.

(** X4: After an update with a two-element position whose elements the
    encoder takes and whose timestamp is later than that of every stored
    position of the vehicle, the latest handler returns that update: its
    coordinates, its timestamp, and the coordinate string as
    live_location. *)
Theorem update_then_latest vehicle d a b now oid net db :
  lookup "position" d = Some (PList [a; b]) ->
  refusal a = None ->
  refusal b = None ->
  (forall q, In q db -> matches vehicle q = true -> timestamp (fields q) < now) ->
  fst (get_latest_position vehicle net
         (snd (update_position vehicle (Ok (PDict d)) now oid db)))
    = Ok {| _id := IdStr oid;
            fields := {| vehicle_id := PStr vehicle; latitude := a;
                         longitude := b; timestamp := now;
                         live_location :=
                           Some (PStr (py_format a ++ ", " ++ py_format b)%string) |} |}.
Proof.
  intros Hpos Ha Hb Hnew.
  set (new := {| _id := ObjectId oid;
                 fields := {| vehicle_id := PStr vehicle; latitude := a;
                              longitude := b; timestamp := now;
                              live_location := None |} |}).
  assert (Hupd : snd (update_position vehicle (Ok (PDict d)) now oid db)
                 = db ++ [new]).
  { rewrite (update_position_pair _ _ _ _ _ _ _ Hpos), Ha, Hb. reflexivity. }
  rewrite Hupd.
  assert (Hm : matches vehicle new = true)
    by (unfold matches; simpl; apply String.eqb_refl).
  destruct (find_one vehicle (db ++ [new])) as [pos|] eqn:Hf.
  - destruct (find_one_Some _ _ _ Hf) as (Hin & Hmatch & Hnewest).
    assert (pos = new) as ->.
    { apply in_app_or in Hin as [Hin|[<-|[]]]; [|reflexivity].
      specialize (Hnew pos Hin Hmatch).
      assert (Hn : newer_first pos new)
        by (apply Hnewest; [apply in_or_app; right; now left | exact Hm]).
      unfold newer_first in Hn. simpl in Hn. lia. }
    unfold get_latest_position. rewrite Hf.
    rewrite get_latest_position_backfill by reflexivity. reflexivity.
  - rewrite find_one_None in Hf.
    rewrite (Hf new) in Hm; [discriminate | apply in_or_app; right; now left].
Qed.

(** X5: A body that parses to JSON but is not an object (a list, a string, a
    number, null) makes the update operation fail on [data.get]: the
    answer is a 500, not the 400 of the shape check, and nothing is
    stored. *)
Theorem update_position_non_object vehicle data now oid db :
  (forall d, data <> PDict d) ->
  update_position vehicle (Ok data) now oid db = (Raise AttributeError, db) /\
  http_status (fst (update_position vehicle (Ok data) now oid db)) = 500.
Proof.
  intros H. unfold update_position, hbind, lift, raise. simpl await.
  destruct data; try (split; reflexivity). now destruct (H d).
Qed.

(** X6: No position handler removes or changes a stored position: the
    submit and the update operation each append one document exactly
    when they return without an exception and otherwise leave the store
    as it was, and the two read operations leave the store as it is. *)
Theorem handlers_only_append p vehicle body limit_ now oid net db :
  ((exists r doc_,
      save_position p now oid net db = (Ok r, db ++ [doc_])) \/
   (exists e, save_position p now oid net db = (Raise e, db))) /\
  ((exists r doc_,
      update_position vehicle body now oid db = (Ok r, db ++ [doc_])) \/
   (exists e, update_position vehicle body now oid db = (Raise e, db))) /\
  snd (get_positions vehicle limit_ db) = db /\
  snd (get_latest_position vehicle net db) = db.
Proof.
  split; [|split; [|split]].
  - rewrite save_position_eq.
    destruct (int64 (VehiclePosition.vehicle_id p)); [left | right]; eauto.
  - destruct (update_position_store vehicle body now oid db)
      as [[Hs [e He]]|(lat & lon & ->)]; [right|left; eauto].
    exists e. destruct (update_position vehicle body now oid db); simpl in *.
    now subst.
  - reflexivity.
  - unfold get_latest_position.
    destruct (find_one vehicle db) as [pos|]; [|reflexivity].
    destruct (get_latest_position_live_location (stringify_id pos) net);
      reflexivity.
Qed.

(** X7: Whatever the store holds and whatever the geocoder does, the latest
    operation either answers 404 or answers a position whose
    live_location is present and truthy; it raises nothing else. *)
Theorem get_latest_position_label_truthy vehicle net db :
  (exists pos v,
     fst (get_latest_position vehicle net db) = Ok pos /\
     live_location (fields pos) = Some v /\ truthy v = true) \/
  fst (get_latest_position vehicle net db)
    = Raise (HTTPException 404 "No positions found for this vehicle").
Proof.
  unfold get_latest_position.
  destruct (find_one vehicle db) as [pos|]; [left | now right].
  destruct (get_latest_position_live_location_Ok (stringify_id pos) net)
    as (label & -> & Ht).
  simpl. do 2 eexists. split; [reflexivity|]. split; [reflexivity | exact Ht].
Qed.

(** X8: A latest stored position whose live_location is truthy is answered
    as stored, with its _id as a string: the geocoder is not consulted. *)
Theorem get_latest_position_keeps_label vehicle net db pos v :
  find_one vehicle db = Some pos ->
  live_location (fields pos) = Some v ->
  truthy v = true ->
  get_latest_position vehicle net db = (Ok (stringify_id pos), db).
Proof.
  intros Hf Hv Ht. unfold get_latest_position. rewrite Hf.
  unfold get_latest_position_live_location. simpl fields. rewrite Hv, Ht.
  simpl. destruct pos as [i [vid lat lon ts ll]]. simpl in *. subst ll.
  reflexivity.
Qed.







(** *** The [or] chain and [get_place_name] *)

(** X15: When the parsed body's "address" is present but is not an object
    (null, a string, a list), the chain raises on [address.get]: the
    display name is not consulted. *)
Theorem save_position_chain_bad_address d v lat lon :
  lookup "address" d = Some v ->
  (forall a, v <> PDict a) ->
  save_position_chain (PDict d) lat lon = Raise AttributeError.
Proof.
  intros Hv Hno. unfold save_position_chain. simpl. rewrite Hv. simpl.
  destruct v; try reflexivity. now destruct (Hno d0).
Qed.

(** X16: [get_place_name] has no [try]: it returns the coordinate string when
    the status is not 200, raises on a 200 answer (in [json()] or on the
    [await] of its result), and lets a failed request propagate; it never
    returns a display name. *)
Theorem get_place_name_outcomes lat lon net :
  match net default_timeout (reverse_url lat lon) with
  | Raise e => get_place_name lat lon net = Raise e
  | Ok resp =>
      if status_code resp =? 200
      then exists e, get_place_name lat lon net = Raise e
      else get_place_name lat lon net = Ok (PStr (coordinate_label lat lon))
  end.
Proof.
  unfold get_place_name, AsyncClient_get. simpl await.
  destruct (net default_timeout (reverse_url lat lon)) as [resp|e]; simpl;
    [|reflexivity].
  destruct (status_code resp =? 200); [|reflexivity].
  destruct (await_Response_json resp) as [e ->]. simpl. eauto.
Qed.

(** *** Upserts: [db.routes], [db.status], [db.vehicles] *)




Lemma update_first_again {D} (matching : D -> bool) (change : D -> D) coll coll' :
  (forall d, matching d = true -> matching (change d) = true) ->
  (forall d, matching d = true -> change (change d) = change d) ->
  update_first matching change coll = Some coll' ->
  update_first matching change coll' = Some coll'.
Proof.
  intros Hm Hc. revert coll'.
  induction coll as [|e coll IH]; simpl; intros coll' H; [discriminate|].
  destruct (matching (doc e)) eqn:He.
  - injection H as <-. simpl. rewrite (Hm _ He), (Hc _ He). reflexivity.
  - destruct (update_first matching change coll) as [rest'|]; [|discriminate].
    injection H as <-. simpl. rewrite He, (IH rest' eq_refl). reflexivity.
Qed.

Lemma update_first_snoc {D} (matching : D -> bool) (change : D -> D) coll e :
  update_first matching change coll = None ->
  matching (doc e) = true ->
  update_first matching change (coll ++ [e])
    = Some (coll ++ [{| doc_id := doc_id e; doc := change (doc e) |}]).
Proof.
  intros H He. induction coll as [|a coll IH]; simpl in *.
  - now rewrite He.
  - destruct (matching (doc a)); [discriminate|].
    destruct (update_first matching change coll); [discriminate|].
    now rewrite (IH eq_refl).
Qed.

Lemma update_one_again {D} (matching : D -> bool) (change : D -> D) fresh
    oid oid' coll :
  (forall d, matching d = true -> matching (change d) = true) ->
  (forall d, matching d = true -> change (change d) = change d) ->
  matching fresh = true ->
  change fresh = fresh ->
  update_one matching change fresh oid' (update_one matching change fresh oid coll)
    = update_one matching change fresh oid coll.
Proof.
  intros Hm Hc Hf Hcf. unfold update_one.
  destruct (update_first matching change coll) as [coll'|] eqn:H.
  - now rewrite (update_first_again _ _ _ _ Hm Hc H).
  - rewrite (update_first_snoc _ _ coll {| doc_id := ObjectId oid; doc := fresh |} H Hf).
    simpl. now rewrite Hcf.
Qed.


(** X18: Sending the same route or status for a vehicle a second time changes
    nothing: no second document is created. *)
Theorem update_route_and_status_idempotent vehicle oid oid' :
  (forall body routes,
     snd (update_route_info vehicle body oid'
            (snd (update_route_info vehicle body oid routes)))
       = snd (update_route_info vehicle body oid routes)) /\
  (forall body statuses,
     snd (update_status_info vehicle body oid'
            (snd (update_status_info vehicle body oid statuses)))
       = snd (update_status_info vehicle body oid statuses)).
Proof.
  split; intros body coll; simpl; unfold update_keyed;
    apply update_one_again; simpl; auto using String.eqb_refl.
Qed.

(** X19: When the body's id is the identifier of the path, updating a vehicle
    twice with the same body is the same as updating it once. *)
Theorem update_vehicle_info_idempotent vehicle body oid oid' vehicles :
  VehicleInfo.id body = vehicle ->
  snd (update_vehicle_info vehicle body oid'
         (snd (update_vehicle_info vehicle body oid vehicles)))
    = snd (update_vehicle_info vehicle body oid vehicles).
Proof.
  intros Hid. simpl. apply update_one_again; simpl; trivial;
    intros; rewrite Hid; apply String.eqb_refl.
Qed.

Lemma update_first_vehicle vehicle body coll :
  VehicleInfo.id body <> vehicle ->
  match update_first (fun d => String.eqb (VehicleInfo.id d) vehicle)
                     (fun _ => body) coll with
  | Some coll' =>
      List.length coll' = List.length coll /\
      S (List.length (vehicles_with_id vehicle coll'))
        = List.length (vehicles_with_id vehicle coll) /\
      List.length (vehicles_with_id (VehicleInfo.id body) coll')
        = S (List.length (vehicles_with_id (VehicleInfo.id body) coll))
  | None => vehicles_with_id vehicle coll = []
  end.
Proof.
  intros Hne. induction coll as [|e coll IH]; simpl; [reflexivity|].
  destruct (String.eqb_spec (VehicleInfo.id (doc e)) vehicle) as [Heq|Hno].
  - simpl. rewrite String.eqb_refl.
    destruct (String.eqb_spec (VehicleInfo.id body) vehicle); [contradiction|].
    destruct (String.eqb_spec (VehicleInfo.id (doc e)) (VehicleInfo.id body));
      [congruence|].
    repeat split.
  - destruct (update_first _ _ coll) as [coll'|]; simpl.
    + destruct IH as (H0 & H1 & H2).
      destruct (String.eqb_spec (VehicleInfo.id (doc e)) vehicle); [contradiction|].
      destruct (String.eqb_spec (VehicleInfo.id (doc e)) (VehicleInfo.id body));
        simpl; repeat split; congruence.
    + destruct (String.eqb_spec (VehicleInfo.id (doc e)) vehicle);
        [contradiction|exact IH].
Qed.

(** X20: When the body's id differs from the identifier of the path, [$set]
    overwrites the id the filter matched on: each call adds one document
    under the body's id and takes one, if there is any, from the path's
    identifier; with none there, every call inserts a new document. *)
Theorem update_vehicle_info_id_mismatch vehicle body oid vehicles :
  VehicleInfo.id body <> vehicle ->
  let after := snd (update_vehicle_info vehicle body oid vehicles) in
  List.length (vehicles_with_id (VehicleInfo.id body) after)
    = S (List.length (vehicles_with_id (VehicleInfo.id body) vehicles)) /\
  List.length (vehicles_with_id vehicle after)
    = Nat.pred (List.length (vehicles_with_id vehicle vehicles)) /\
  (vehicles_with_id vehicle vehicles = [] ->
   after = vehicles ++ [{| doc_id := ObjectId oid; doc := body |}]).
Proof.
  intros Hne. simpl. unfold update_one.
  pose proof (update_first_vehicle vehicle body vehicles Hne) as H.
  destruct (update_first _ _ vehicles) as [coll'|] eqn:Hu.
  - destruct H as (H0 & H1 & H2). repeat split.
    + exact H2.
    + rewrite <- H1. reflexivity.
    + intros Hnone. rewrite Hnone in H1. discriminate.
  - unfold vehicles_with_id in *. rewrite !filter_app, !length_app, H. simpl.
    rewrite String.eqb_refl.
    destruct (String.eqb_spec (VehicleInfo.id body) vehicle); [contradiction|].
    simpl. repeat split. lia.
Qed.

(** *** Logins *)

Lemma string_leb_iff a b :
  String.leb a b = true <-> a = b \/ OrderedTypeEx.String_as_OT.lt a b.
Proof.
  unfold String.leb. split.
  - destruct (String.compare a b) eqn:H; [| |discriminate]; intros _.
    + left. now apply String.compare_eq_iff.
    + right. now apply OrderedTypeEx.String_as_OT.cmp_lt.
  - intros [->|H].
    + replace (String.compare b b) with Eq; [reflexivity|].
      symmetry. now apply OrderedTypeEx.String_as_OT.cmp_eq.
    + apply OrderedTypeEx.String_as_OT.cmp_lt in H.
      unfold OrderedTypeEx.String_as_OT.cmp in H. now rewrite H.
Qed.

Lemma string_leb_trans a b c :
  String.leb a b = true -> String.leb b c = true -> String.leb a c = true.
Proof.
  rewrite !string_leb_iff. intros [->|H1] [->|H2]; auto.
  right. eapply OrderedTypeEx.String_as_OT.lt_trans; eassumption.
Qed.

Lemma insert_login_perm p l : Permutation (p :: l) (insert_login p l).
Proof.
  induction l as [|q l IH]; simpl.
  - apply Permutation_refl.
  - destruct (String.leb _ _).
    + apply Permutation_refl.
    + eapply perm_trans; [apply perm_swap|]. now apply perm_skip.
Qed.

Lemma sort_logins_perm l : Permutation l (sort_logins l).
Proof.
  induction l as [|p l IH]; simpl.
  - apply perm_nil.
  - eapply perm_trans; [apply perm_skip, IH | apply insert_login_perm].
Qed.

Lemma insert_login_sorted p l :
  StronglySorted later_first l -> StronglySorted later_first (insert_login p l).
Proof.
  induction 1 as [|q l Hl IH Hq]; simpl.
  - repeat constructor.
  - destruct (String.leb (login_login_time (doc q)) (login_login_time (doc p)))
      eqn:Hle.
    + constructor; [now constructor|].
      constructor; [exact Hle|].
      rewrite Forall_forall in *. intros r Hr.
      unfold later_first in *. eapply string_leb_trans; [apply Hq, Hr | exact Hle].
    + constructor; [exact IH|].
      rewrite Forall_forall in *. intros r Hr.
      apply (Permutation_in _ (Permutation_sym (insert_login_perm p l))) in Hr.
      destruct Hr as [<-|Hr]; [|now apply Hq].
      unfold later_first.
      destruct (String.leb_total (login_login_time (doc q))
                                 (login_login_time (doc p))); congruence.
Qed.

Lemma sort_logins_sorted l : StronglySorted later_first (sort_logins l).
Proof.
  induction l as [|p l IH]; simpl; [constructor | now apply insert_login_sorted].
Qed.

Lemma sorted_map_login_id (l : list (stored login)) :
  StronglySorted later_first l ->
  StronglySorted later_first
    (map (fun e => {| doc_id := IdStr (str_id (doc_id e)); doc := doc e |}) l).
Proof.
  induction 1 as [|a l Hl IH Ha]; simpl; constructor; [exact IH|].
  rewrite Forall_forall in *. intros r Hr.
  apply in_map_iff in Hr as (q & <- & Hq). exact (Ha q Hq).
Qed.

(** X21: The logins operation answers with every stored login, none left out
    and none twice, the latest login time first in the order of strings,
    each _id as a string; it has no limit and leaves the store as it
    is. *)
Theorem get_logins_all_latest_first logins :
  exists l,
    get_logins logins = (Ok l, logins) /\
    StronglySorted later_first l /\
    Permutation l
      (map (fun e => {| doc_id := IdStr (str_id (doc_id e)); doc := doc e |})
           logins).
Proof.
  eexists. split; [reflexivity|]. split.
  - apply sorted_map_login_id, sort_logins_sorted.
  - apply Permutation_map, Permutation_sym, sort_logins_perm.
Qed.

(** X22: A login that is saved is listed: the logins operation then answers
    with one entry more, among them the login just saved, whose
    login_time is the one sent or, when none was sent, the value fixed
    when the class was defined. *)
Theorem save_login_then_get_logins started i oid logins :
  exists l,
    fst (get_logins (snd (save_login started i oid logins))) = Ok l /\
    List.length l = S (List.length logins) /\
    In {| doc_id := IdStr oid;
          doc := {| login_username := LoginInfo.username i;
                    login_companyCode := LoginInfo.companyCode i;
                    login_vehicleId := LoginInfo.vehicleId i;
                    login_login_time := match LoginInfo.login_time i with
                                        | Some t => t
                                        | None => started
                                        end |} |} l.
Proof.
  unfold save_login, get_logins. simpl fst. simpl snd.
  eexists. split; [reflexivity|]. split.
  - rewrite length_map, <- (Permutation_length (sort_logins_perm _)), length_app.
    simpl. lia.
  - apply in_map_iff.
    exists {| doc_id := ObjectId oid; doc := LoginInfo_dict started i |}.
    split; [reflexivity|].
    apply (Permutation_in _ (sort_logins_perm _)), in_or_app. right. now left.
Qed.

End Handlers.

(** ** The properties on sample inputs *)

(** C3 (code defect): on a 200 answer whose address has only city
    "Springfield" and state "Illinois", the chain of lines 81-91 would
    select "Springfield", but line 79 awaits the value [resp.json()]
    returned, which raises; the handler of line 94 then stores the
    coordinates. *)
Theorem save_position_discards_address :
  save_position_chain sample_repr springfield (float_ "12.34") (float_ "56.78")
    = Ok (PStr "Springfield") /\
  save_position_live_location sample_repr (float_ "12.34") (float_ "56.78")
    (answering 200 (Ok springfield)) = Ok (PStr "12.34, 56.78") /\
  get_latest_position_live_location sample_repr (pushed "v1" 5 "a1" None)
    (answering 200 (Ok springfield)) = Ok (PStr "12.34, 56.78").
Proof. repeat split; reflexivity. Qed.

(** C6 (code defect): for the latest record of v1, stored without
    live_location, and a 200 answer whose address has only city
    "Springfield" and state "Illinois", the chain of lines 148-158 would
    give "Springfield", but line 147 awaits the value [resp.json()]
    returned, which raises; the handler of line 161 then answers with
    the coordinates.  Nothing is written: the store is as before. *)
Theorem get_latest_position_discards_address :
  get_latest_position_chain sample_repr springfield
    (float_ "12.34") (float_ "56.78") = Ok (PStr "Springfield") /\
  get_latest_position sample_repr "v1" (answering 200 (Ok springfield))
    sample_store
    = (Ok {| _id := IdStr "a3";
             fields := {| vehicle_id := PStr "v1";
                          latitude := float_ "12.34";
                          longitude := float_ "56.78";
                          timestamp := 9;
                          live_location := Some (PStr "12.34, 56.78") |} |},
       sample_store).
Proof. split; reflexivity. Qed.

(** C8 (code defect): vehicle 7 has a stored position, submitted through
    POST /positions/, yet latest answers 404 for the identifier 7:
    submit stores the vehicle_id as a number (line 39) and latest filters
    on the string of the path (line 134).  The same position pushed
    through the update operation, which stores the string (line 106),
    is found. *)
Theorem get_latest_position_misses_submitted :
  save_position sample_repr sample_refusal report_7 9 "a1" timing_out []
    = (Ok (PDict [("status", PStr "Position saved successfully")]),
       submitted_store) /\
  get_latest_position sample_repr "7" timing_out submitted_store
    = (Raise (HTTPException 404 "No positions found for this vehicle"),
       submitted_store) /\
  http_status (fst (get_latest_position sample_repr "7" timing_out
                      submitted_store)) = 404 /\
  fst (get_latest_position sample_repr "7" timing_out
         (snd (update_position sample_refusal "7"
                 (body_of (PList [float_ "12.34"; float_ "56.78"])) 5 "a1" [])))
    = Ok {| _id := IdStr "a1";
            fields := {| vehicle_id := PStr "7";
                         latitude := float_ "12.34";
                         longitude := float_ "56.78";
                         timestamp := 5;
                         live_location := Some (PStr "12.34, 56.78") |} |}.
Proof. repeat split; reflexivity. Qed.

(** C1, as stated, fails on the update path: the document it stores has
    no live_location. *)
Lemma update_position_stores_no_live_location :
  update_position sample_refusal "v1"
    (body_of (PList [float_ "12.34"; float_ "56.78"])) 5 "a1" []
    = (Ok (PDict [("status", PStr "Position updated")]), [pushed "v1" 5 "a1" None]) /\
  live_location (fields (pushed "v1" 5 "a1" None)) = None.
Proof. split; reflexivity. Qed.


(** C5, as stated, fails on a pair that is not numeric: ["a", "b"] is
    accepted and stored. *)
Lemma update_position_accepts_non_numeric :
  numeric_pair (PList [PStr "a"; PStr "b"]) = false /\
  update_position sample_refusal "v1" (body_of (PList [PStr "a"; PStr "b"]))
    5 "a1" []
    = (Ok (PDict [("status", PStr "Position updated")]),
       [{| _id := ObjectId "a1";
           fields := {| vehicle_id := PStr "v1"; latitude := PStr "a";
                        longitude := PStr "b"; timestamp := 5;
                        live_location := None |} |}]).
Proof. split; reflexivity. Qed.



Lemma save_position_live_location_fallback_503 :
  save_position_live_location sample_repr (float_ "12.34") (float_ "56.78")
    (answering 503 (Ok springfield)) = Ok (PStr "12.34, 56.78").
Proof.
  apply (save_position_live_location_fallback sample_repr
           (float_ "12.34") (float_ "56.78") (answering 503 (Ok springfield))).
  reflexivity.
Defined.

Lemma update_position_checks_shape_sample :
  update_position sample_refusal "v1" (body_of (PList [PInt 1; PInt 2; PInt 3]))
    5 "a1" sample_store
    = (Raise (HTTPException 400 "Invalid position format. Expected [lat, lon]."),
       sample_store).
Proof.
  apply (update_position_checks_shape sample_refusal "v1"
           [("position", PList [PInt 1; PInt 2; PInt 3])] 5 "a1" sample_store).
  intros a b. simpl. discriminate.
Defined.



(** ** The further properties on sample inputs *)

Lemma update_position_other_vehicles_sample :
  fst (get_positions "v2" None
         (snd (update_position sample_refusal "v1"
                 (body_of (PList [PInt 1; PInt 2])) 12 "a4" sample_store)))
    = fst (get_positions "v2" None sample_store).
Proof.
  assert (H : "v2" <> "v1") by discriminate.
  exact (proj1 (update_position_other_vehicles sample_repr sample_refusal
                  "v1" "v2" (body_of (PList [PInt 1; PInt 2])) 12 "a4"
                  sample_store H) None).
Defined.

Lemma update_then_latest_sample :
  fst (get_latest_position sample_repr "v1" timing_out
         (snd (update_position sample_refusal "v1"
                 (body_of (PList [float_ "1.5"; float_ "2.5"])) 12 "a4"
                 sample_store)))
    = Ok {| _id := IdStr "a4";
            fields := {| vehicle_id := PStr "v1"; latitude := float_ "1.5";
                         longitude := float_ "2.5"; timestamp := 12;
                         live_location := Some (PStr "1.5, 2.5") |} |}.
Proof.
  apply (update_then_latest sample_repr sample_refusal "v1"
           [("position", PList [float_ "1.5"; float_ "2.5"])]
           (float_ "1.5") (float_ "2.5") 12 "a4" timing_out sample_store).
  - reflexivity.
  - reflexivity.
  - reflexivity.
  - intros q Hq _. simpl in Hq.
    destruct Hq as [<-|[<-|[<-|[]]]]; simpl; lia.
Defined.

Lemma update_position_non_object_sample :
  update_position sample_refusal "v1" (Ok (PList [PInt 1; PInt 2])) 5 "a1"
    sample_store = (Raise AttributeError, sample_store).
Proof.
  apply (update_position_non_object sample_refusal "v1" (PList [PInt 1; PInt 2])
           5 "a1" sample_store).
  intros d. discriminate.
Defined.

Lemma get_latest_position_keeps_label_sample :
  get_latest_position sample_repr "v1" timing_out labelled_store
    = (Ok {| _id := IdStr "a1";
             fields := fields (pushed "v1" 5 "a1" (Some (PStr "Main Street"))) |},
       labelled_store).
Proof.
  apply (get_latest_position_keeps_label sample_repr "v1" timing_out
           labelled_store (pushed "v1" 5 "a1" (Some (PStr "Main Street")))
           (PStr "Main Street")); reflexivity.
Defined.



Lemma get_latest_position_404_or_newest_sample :
  get_latest_position sample_repr "v9" timing_out sample_store
    = (Raise (HTTPException 404 "No positions found for this vehicle"), sample_store) /\
  exists pos label,
    In pos sample_store /\
    get_latest_position sample_repr "v1" timing_out sample_store
      = (Ok {| _id := IdStr (str_id (_id pos));
               fields := with_live_location label (fields pos) |}, sample_store).
Proof.
  split.
  - apply (proj1 (get_latest_position_404_or_newest sample_repr
                    "v9" timing_out sample_store)).
    intros p Hp. simpl in Hp.
    destruct Hp as [<-|[<-|[<-|[]]]]; reflexivity.
  - destruct (proj2 (get_latest_position_404_or_newest sample_repr
                       "v1" timing_out sample_store))
      as (pos & label & Hin & _ & _ & H).
    + exists (pushed "v1" 5 "a1" None). split; [simpl; auto | reflexivity].
    + exists pos, label. split; assumption.
Defined.

Lemma get_latest_position_backfills_sample :
  get_latest_position sample_repr "v1" (answering 200 (Ok springfield))
    sample_store
    = (Ok {| _id := IdStr "a3";
             fields := {| vehicle_id := PStr "v1";
                          latitude := float_ "12.34";
                          longitude := float_ "56.78";
                          timestamp := 9;
                          live_location := Some (PStr "12.34, 56.78") |} |},
       sample_store).
Proof.
  assert (Hf : find_one "v1" sample_store = Some (pushed "v1" 9 "a3" None))
    by reflexivity.
  assert (Hn : live_location (fields (pushed "v1" 9 "a3" None)) = None)
    by reflexivity.
  exact (proj1 (get_latest_position_backfills_without_write sample_repr
                  "v1" (answering 200 (Ok springfield)) sample_store _ Hf Hn)).
Defined.

Lemma save_position_chain_order_sample :
  save_position_chain sample_repr springfield (float_ "12.34") (float_ "56.78")
    = Ok (PStr "Springfield").
Proof.
  unfold springfield.
  rewrite (save_position_chain_order sample_repr _
             [("city", PStr "Springfield"); ("state", PStr "Illinois")])
    by reflexivity.
  reflexivity.
Defined.

Lemma save_position_chain_truthy_sample :
  truthy (PStr "Springfield") = true.
Proof.
  apply (save_position_chain_truthy sample_repr springfield
           (float_ "12.34") (float_ "56.78")).
  reflexivity.
Defined.

Lemma save_position_chain_bad_address_sample :
  save_position_chain sample_repr (PDict null_address)
    (float_ "12.34") (float_ "56.78") = Raise AttributeError.
Proof.
  apply (save_position_chain_bad_address sample_repr null_address PNone).
  - reflexivity.
  - intros a. discriminate.
Defined.

Lemma update_vehicle_info_idempotent_sample :
  snd (update_vehicle_info "v1" truck "o2"
         (snd (update_vehicle_info "v1" truck "o1" [])))
    = snd (update_vehicle_info "v1" truck "o1" []).
Proof.
  apply (update_vehicle_info_idempotent "v1" truck "o1" "o2" []). reflexivity.
Defined.

Lemma update_vehicle_info_id_mismatch_sample :
  snd (update_vehicle_info "v1" renamed_truck "o2"
         [{| doc_id := ObjectId "o1"; doc := renamed_truck |}])
    = [{| doc_id := ObjectId "o1"; doc := renamed_truck |};
       {| doc_id := ObjectId "o2"; doc := renamed_truck |}].
Proof.
  assert (H : VehicleInfo.id renamed_truck <> "v1") by discriminate.
  apply (proj2 (proj2 (update_vehicle_info_id_mismatch "v1" renamed_truck "o2"
                         [{| doc_id := ObjectId "o1"; doc := renamed_truck |}] H))).
  reflexivity.
Defined.
